(** * CPU temperature model (cpu_temperature_model.py)

    A shallow embedding of the thermal model: the power profiles, the
    right-hand side of the ODE, the closed-form solution, the driver that
    samples a trajectory, the series that are plotted and the derived
    characteristics that the report prints.

    Number model.  The program computes in binary64.  Two readings of its
    arithmetic are kept side by side, each function having the same shape
    in both.

    - Over the real numbers (the top-level definitions): Python's floats,
      and the integer literals mixed with them through true division, are
      read as reals; [np.exp], [np.sin] and [np.pi] are the real [exp],
      [sin] and [PI].  This reading is used for statements that rounding
      does not decide: the expression a function computes, values that are
      exact in binary64, and bounds that hold with a margin.

    - In binary64 (module [Binary64]): the same functions over primitive
      floats, with the arithmetic of the machine.  This reading is used
      wherever the last bit matters: exact zeros, repeated or distinct
      sampling times, and the arguments handed to [np.sin].  [np.exp] and
      [np.sin] are not computed there; the functions that call them take
      them as an argument.

    Global names.  The four module-level names [C], [k], [T_env], [T0] are
    looked up when a function runs.  In the real reading they are gathered
    in a record that every function reading them receives; [module_globals]
    holds the values the module assigns. *)

From Stdlib Require Import String.
From Stdlib Require Import Floats.
From Stdlib Require Import Reals Lra Lia List ZArith.
Import ListNotations.

Open Scope R_scope.

(** ** Outcomes of a call *)

(** A call either returns a value or raises an exception, identified by the
    name of its class. *)
Inductive outcome (A : Type) : Type :=
| Returned (value : A)
| Raised (exception_class : string).

Arguments Returned {A} value.
Arguments Raised {A} exception_class.

Definition raises {A : Type} (o : outcome A) (cls : string) : Prop :=
  o = Raised cls.

(** ** Physical parameters (lines 24-28) *)

Record Globals : Type := mkGlobals {
  C : R;      (* heat capacity, J/degC *)
  k : R;      (* thermal conductivity, W/degC *)
  T_env : R;  (* room temperature, degC *)
  T0 : R      (* initial CPU temperature, degC *)
}.

(** The values written in the source. *)
Definition module_globals : Globals := mkGlobals 50 5 25 25.


(** ** Power scenarios (lines 32-45) *)

Definition power_idle (t : R) : R := 10.

Definition power_step (t : R) : R :=
  if Rlt_dec t 5 then 10 else 80.

Definition power_periodic (t : R) : R :=
  let omega := 2 * PI / 20 in
  45 + 35 * sin (omega * t).

(** ** The model and its exact solution (lines 48-71) *)

Section Model.

Variable g : Globals.

Definition cpu_ode (T t : R) (power_func : R -> R) : R :=
  let P := power_func t in
  let heat_loss := k g * (T - T_env g) in
  let dT_dt := (P - heat_loss) / C g in
  dT_dt.

(* The parameter named T0 in the source hides the global of that name. *)
Definition analytical_solution (t T0 P_const : R) : R :=
  let tau := C g / k g in
  let T_steady := T_env g + P_const / k g in
  let T := T_steady + (T0 - T_steady) * exp (- t / tau) in
  T.

End Model.

(** ** Library routines used by the driver *)

(** [np.linspace start stop num], with its default [endpoint=True]: sample
    [i] is [i * step + start] where [step = (stop - start) / (num - 1)]. *)
Definition linspace (start stop : R) (num : nat) : list R :=
  let step := (stop - start) / INR (num - 1) in
  map (fun i : nat => INR i * step + start) (seq 0 num).

(** [ndarray.flatten] on a two-dimensional array, row by row. *)
Definition flatten (rows : list (list R)) : list R := concat rows.

(** The signature of [scipy.integrate.odeint] for a scalar state: the
    right-hand side [func y t], the initial value, the requested times; the
    result has one row per requested time. *)
Definition ode_solver : Type := (R -> R -> R) -> R -> list R -> list (list R).

(** What scipy documents about the result: shape [(len(t), len(y0))], with
    the initial value [y0] in the first row. *)
Record odeint_contract (odeint : ode_solver) : Prop := {
  odeint_rows : forall func y0 t, length (odeint func y0 t) = length t;
  odeint_width : forall func y0 t row,
      In row (odeint func y0 t) -> length row = 1%nat;
  odeint_first : forall func y0 t0 t,
      nth_error (odeint func y0 (t0 :: t)) 0 = Some [y0]
}.

(** ** The driver (lines 74-83) *)

Section Driver.

Variable g : Globals.
Variable odeint : ode_solver.

Definition solve_scenario (power_func : R -> R) (t_span : R * R)
    (label : string) : outcome (list R * list R) :=
  let t := linspace (fst t_span) (snd t_span) 500 in
  let T := odeint (fun T t => cpu_ode g T t power_func) (T0 g) t in
  let T := flatten T in
  Returned (t, T).

End Driver.

(** ** The analysis report (lines 165-189) *)

(** The numbers that [print_analysis] computes and formats. *)
Record Analysis : Type := mkAnalysis {
  tau : R;
  T_steady_idle : R;
  T_steady_load : R;
  response_63 : R;
  response_95 : R;
  response_99 : R;
  rise_at_load : R;
  degrees_per_watt : R
}.

Definition print_analysis (g : Globals) : Analysis :=
  let tau := C g / k g in
  let T_steady_idle := T_env g + power_idle 0 / k g in
  let T_steady_load := T_env g + 80 / k g in
  mkAnalysis tau T_steady_idle T_steady_load
             tau (3 * tau) (5 * tau)
             (T_steady_load - T_env g) (1 / k g).

(** ** The plotted series (lines 93-130)

    What [plot_results] computes before it draws: the three runs of the
    driver over its default span [(0, 60)], the exact idle curve evaluated at
    every idle time, and the power drawn at every time of the step and
    periodic runs.  The drawing calls themselves are left out. *)
Record PlotData : Type := mkPlotData {
  t_idle : list R;
  T_numerical : list R;
  T_analytical : list R;
  t_step : list R;
  T_step : list R;
  P_step : list R;
  t_periodic : list R;
  T_periodic : list R;
  P_periodic : list R
}.

Section Plot.

Variable g : Globals.
Variable odeint : ode_solver.

Definition plot_results : outcome PlotData :=
  match solve_scenario g odeint power_idle (0, 60) "Idle" with
  | Raised e => Raised e
  | Returned (t_idle, T_numerical) =>
    let T_analytical :=
      map (fun t => analytical_solution g t (T0 g) (power_idle 0)) t_idle in
    match solve_scenario g odeint power_step (0, 60) "Step Load" with
    | Raised e => Raised e
    | Returned (t_step, T_step) =>
      let P_step := map (fun t => power_step t) t_step in
      match solve_scenario g odeint power_periodic (0, 60) "Periodic Load" with
      | Raised e => Raised e
      | Returned (t_periodic, T_periodic) =>
        let P_periodic := map (fun t => power_periodic t) t_periodic in
        Returned (mkPlotData t_idle T_numerical T_analytical
                             t_step T_step P_step
                             t_periodic T_periodic P_periodic)
      end
    end
  end.

End Plot.

(** ** A reference solver

    A fixed-step explicit Euler scheme over the requested times.  It is not
    the algorithm scipy runs; it shows that the documented contract can be
    met and gives the driver something to run on. *)

Fixpoint euler_from (func : R -> R -> R) (y t_prev : R) (t : list R)
  : list (list R) :=
  match t with
  | [] => []
  | t_next :: rest =>
      let y' := y + (t_next - t_prev) * func y t_prev in
      [y'] :: euler_from func y' t_next rest
  end.

Definition euler_odeint : ode_solver :=
  fun func y0 t =>
    match t with
    | [] => []
    | t0 :: rest => [y0] :: euler_from func y0 t0 rest
    end.

(** * The same program in binary64

    The functions of the source once more, over primitive floats.  The
    integer literals of the source ([C = 50], [10], [80], ...) meet floats
    in every operation below and are converted exactly, so they are written
    as floats.  [power_periodic] and [analytical_solution] receive the
    library routine they call ([np.sin], [np.exp]) as their first
    argument. *)

Module Binary64.

Local Open Scope float_scope.

(** [np.pi], the double nearest to pi. *)
Definition pi : float := 0x1.921fb54442d18p+1.

(** Physical parameters (lines 24-28). *)
Definition C : float := 50.
Definition k : float := 5.
Definition T_env : float := 25.
Definition T0 : float := 25.

(** Power scenarios (lines 32-45). *)
Definition power_idle (t : float) : float := 10.

Definition power_step (t : float) : float :=
  if t <? 5 then 10 else 80.

Definition power_periodic (np_sin : float -> float) (t : float) : float :=
  let omega := 2 * pi / 20 in
  45 + 35 * np_sin (omega * t).

(** The model and its exact solution (lines 48-71). *)
Definition cpu_ode (T t : float) (power_func : float -> float) : float :=
  let P := power_func t in
  let heat_loss := k * (T - T_env) in
  let dT_dt := (P - heat_loss) / C in
  dT_dt.

Definition analytical_solution (np_exp : float -> float)
    (t T0 P_const : float) : float :=
  let tau := C / k in
  let T_steady := T_env + P_const / k in
  let T := T_steady + (T0 - T_steady) * np_exp (- t / tau) in
  T.

(** A whole number as a double (exact below 2^53). *)
Definition float_of_nat (n : nat) : float :=
  of_uint63 (Uint63.of_Z (Z.of_nat n)).

(** [np.linspace start stop num] with [endpoint=True], as numpy computes
    it: [arange(0, num)] is multiplied by [step = (stop - start) / (num - 1)]
    (or, when that step is zero, divided by [num - 1] and multiplied by
    [stop - start]), [start] is added, and for [num > 1] the last sample is
    overwritten with [stop]. *)
Definition linspace (start stop : float) (num : nat) : list float :=
  let div := float_of_nat (num - 1) in
  let delta := stop - start in
  let y := map float_of_nat (seq 0 num) in
  let y :=
    if 0 <? div then
      let step := delta / div in
      if step =? 0 then map (fun a => a / div * delta) y
      else map (fun a => a * step) y
    else map (fun a => a * delta) y in
  let y := map (fun a => a + start) y in
  match num with
  | O | S O => y
  | _ => removelast y ++ [stop]
  end.


Fixpoint strictly_decreasing (l : list float) : bool :=
  match l with
  | a :: (b :: _) as rest => (b <? a) && strictly_decreasing rest
  | _ => true
  end.

Fixpoint nondecreasing (l : list float) : bool :=
  match l with
  | a :: (b :: _) as rest => (a <=? b) && nondecreasing rest
  | _ => true
  end.

Fixpoint nonincreasing (l : list float) : bool :=
  match l with
  | a :: (b :: _) as rest => (b <=? a) && nonincreasing rest
  | _ => true
  end.

(** The time arrays scipy documents as admissible: finite, and going one
    way, repeated values allowed. *)
Definition monotone_times (t : list float) : bool :=
  forallb is_finite t && (nondecreasing t || nonincreasing t).

Definition flatten (rows : list (list float)) : list float := concat rows.

(** [scipy.integrate.odeint] for a scalar state.  A call may raise. *)
Definition ode_solver : Type :=
  (float -> float -> float) -> float -> list float
  -> outcome (list (list float)).

(** What scipy documents: the times must be monotonically increasing or
    monotonically decreasing, repeated values allowed; the result has shape
    [(len(t), len(y0))], with the initial value [y0] in the first row. *)
Record odeint_contract (odeint : ode_solver) : Prop := {
  odeint_accepts : forall func y0 t,
      monotone_times t = true ->
      exists rows, odeint func y0 t = Returned rows;
  odeint_rows : forall func y0 t rows,
      odeint func y0 t = Returned rows -> length rows = length t;
  odeint_width : forall func y0 t rows row,
      odeint func y0 t = Returned rows -> In row rows -> length row = 1%nat;
  odeint_first : forall func y0 t0 t rows,
      odeint func y0 (t0 :: t) = Returned rows ->
      nth_error rows 0 = Some [y0]
}.

(** The driver (lines 74-83).  An exception raised inside [odeint] leaves
    the function; nothing else in the body can raise. *)
Definition solve_scenario (odeint : ode_solver) (power_func : float -> float)
    (t_span : float * float) (label : string)
  : outcome (list float * list float) :=
  let t := linspace (fst t_span) (snd t_span) 500 in
  match odeint (fun T t => cpu_ode T t power_func) T0 t with
  | Raised e => Raised e
  | Returned T =>
      let T := flatten T in
      Returned (t, T)
  end.

(** A reference solver (fixed-step explicit Euler over the requested
    times) and a reference exponential (thirty terms of the power series).
    Neither is the algorithm the libraries run; they show that what is
    assumed of the libraries can be met. *)
Fixpoint euler_from (func : float -> float -> float) (y t_prev : float)
    (t : list float) : list (list float) :=
  match t with
  | [] => []
  | t_next :: rest =>
      let y' := y + (t_next - t_prev) * func y t_prev in
      [y'] :: euler_from func y' t_next rest
  end.

Definition euler_odeint : ode_solver :=
  fun func y0 t =>
    match t with
    | [] => Returned []
    | t0 :: rest => Returned ([y0] :: euler_from func y0 t0 rest)
    end.



(** The real number a finite double stands for (0 for the others). *)
Definition to_real (x : float) : R :=
  match Prim2SF x with
  | S754_finite s m e => IZR (if s then Z.neg m else Z.pos m) * powerRZ 2 e
  | _ => 0%R
  end.

End Binary64.

(** * Properties *)

(** ** The model *)

(** C1. [cpu_ode] is a function of its arguments and the physical parameters
    alone, and its value is the energy balance
    [(P(t) - k * (T - T_env)) / C], for every temperature, time and power
    profile. *)
Theorem cpu_ode_energy_balance :
  forall (g : Globals) (T t : R) (P : R -> R),
    cpu_ode g T t P = (P t - k g * (T - T_env g)) / C g.
Proof.
  intros g T t P. unfold cpu_ode. reflexivity.
Qed.

(** C2. The analytical solution is the exponential relaxation toward the
    steady state [T_ss = T_env + P_constant / k] with time constant
    [tau = C / k]. *)
Theorem analytical_solution_formula :
  forall (g : Globals) (t T_initial P_constant : R),
    let T_ss := T_env g + P_constant / k g in
    let tau := C g / k g in
    analytical_solution g t T_initial P_constant
    = T_ss + (T_initial - T_ss) * exp (- t / tau).
Proof.
  intros g t T_initial P_constant T_ss tau0.
  unfold analytical_solution. subst T_ss tau0. reflexivity.
Qed.

(** C8, as the code has it.  The periodic profile returns
    [45 + 35 * sin (omega * t)] with [omega = 2 * pi / 20] formed first; its
    value lies between 10 W and 80 W, so it is never negative. *)
Theorem power_periodic_expression_and_range :
  forall t : R,
    power_periodic t = 45 + 35 * sin (2 * PI / 20 * t)
    /\ 10 <= power_periodic t <= 80
    /\ 0 <= power_periodic t.
Proof.
  intro t. unfold power_periodic.
  pose proof (SIN_bound (2 * PI / 20 * t)) as [Hlo Hhi].
  repeat split; lra.
Qed.

(** The step profile switches from 10 W to 80 W at [t = 5], the breakpoint
    itself being on the high side. *)
Lemma power_step_values :
  forall t : R,
    (t < 5 -> power_step t = 10) /\ (5 <= t -> power_step t = 80).
Proof.
  intro t. unfold power_step.
  destruct (Rlt_dec t 5) as [Hlt | Hge]; split; intro H;
    try reflexivity; lra.
Qed.

(** ** The report *)

(** C6. With [C = 50], [k = 5], [T_env = 25], [T0 = 25] the report computes a
    time constant of 10 s, a steady state of 27 degC at idle (10 W) and of
    41 degC at full load (80 W), and a 95% response time of 30 s. *)
Theorem print_analysis_values :
  module_globals = mkGlobals 50 5 25 25
  /\ tau (print_analysis module_globals) = 10
  /\ T_steady_idle (print_analysis module_globals) = 27
  /\ T_steady_load (print_analysis module_globals) = 41
  /\ response_95 (print_analysis module_globals) = 30
  /\ response_95 (print_analysis module_globals)
     = 3 * tau (print_analysis module_globals).
Proof.
  unfold print_analysis, power_idle. simpl.
  repeat split; lra.
Qed.

(** ** Sampling times *)

Lemma linspace_length :
  forall (start stop : R) (num : nat), length (linspace start stop num) = num.
Proof.
  intros start stop num. unfold linspace.
  rewrite length_map. apply length_seq.
Qed.

Lemma linspace_nth :
  forall (start stop : R) (num i : nat),
    (i < num)%nat ->
    nth i (linspace start stop num) 0
    = INR i * ((stop - start) / INR (num - 1)) + start.
Proof.
  intros start stop num i Hi. unfold linspace.
  set (sample := fun j : nat => INR j * ((stop - start) / INR (num - 1)) + start).
  rewrite (nth_indep _ 0 (sample 0%nat))
    by (rewrite length_map, length_seq; exact Hi).
  rewrite map_nth. rewrite seq_nth by exact Hi. reflexivity.
Qed.

Lemma linspace_nonempty :
  forall (start stop : R) (num : nat),
    exists first rest, linspace start stop (S num) = first :: rest.
Proof.
  intros start stop num. unfold linspace.
  rewrite <- cons_seq. simpl map. eauto.
Qed.

Lemma INR_499 : INR (500 - 1) = 499.
Proof.
  change (500 - 1)%nat with 499%nat.
  rewrite INR_IZR_INZ. reflexivity.
Qed.

(** The 500 sampling times, written out. *)
Lemma linspace_500_nth :
  forall (t0 t1 : R) (i : nat),
    (i < 500)%nat ->
    nth i (linspace t0 t1 500) 0 = t0 + INR i * ((t1 - t0) / 499).
Proof.
  intros t0 t1 i Hi. rewrite linspace_nth by exact Hi.
  rewrite INR_499. ring.
Qed.

Lemma linspace_500_first :
  forall t0 t1 : R, nth 0 (linspace t0 t1 500) 0 = t0.
Proof.
  intros t0 t1. rewrite linspace_500_nth by lia. simpl INR. ring.
Qed.

Lemma linspace_500_last :
  forall t0 t1 : R, nth 499 (linspace t0 t1 500) 0 = t1.
Proof.
  intros t0 t1. rewrite linspace_500_nth by lia.
  rewrite INR_IZR_INZ. change (IZR (Z.of_nat 499)) with 499. field.
Qed.

(** ** The solver's result, flattened *)

Lemma flatten_unit_rows :
  forall rows : list (list R),
    (forall row, In row rows -> length row = 1%nat) ->
    length (flatten rows) = length rows.
Proof.
  unfold flatten. induction rows as [| row rows IH]; intro Hw.
  - reflexivity.
  - simpl. rewrite length_app.
    rewrite (Hw row) by (left; reflexivity).
    rewrite IH by (intros r Hr; apply Hw; right; exact Hr).
    reflexivity.
Qed.

Lemma flatten_first :
  forall (rows : list (list R)) (y0 : R),
    nth_error rows 0 = Some [y0] -> nth 0 (flatten rows) 0 = y0.
Proof.
  intros rows y0 H. destruct rows as [| row rows]; simpl in H.
  - discriminate.
  - injection H as ->. reflexivity.
Qed.

Section DriverFacts.

Variable g : Globals.
Variable odeint : ode_solver.

Lemma solve_scenario_returns :
  forall (power_func : R -> R) (t_span : R * R) (label : string),
    solve_scenario g odeint power_func t_span label
    = Returned
        (linspace (fst t_span) (snd t_span) 500,
         flatten (odeint (fun T t => cpu_ode g T t power_func) (T0 g)
                         (linspace (fst t_span) (snd t_span) 500))).
Proof. intros. reflexivity. Qed.

Hypothesis contract : odeint_contract odeint.

Lemma solve_scenario_temperatures_length :
  forall (power_func : R -> R) (t_span : R * R),
    length (flatten (odeint (fun T t => cpu_ode g T t power_func) (T0 g)
                            (linspace (fst t_span) (snd t_span) 500)))
    = 500%nat.
Proof.
  intros power_func t_span.
  rewrite flatten_unit_rows by (apply (odeint_width _ contract)).
  rewrite (odeint_rows _ contract). apply linspace_length.
Qed.

Lemma solve_scenario_first_temperature :
  forall (power_func : R -> R) (t_span : R * R),
    nth 0 (flatten (odeint (fun T t => cpu_ode g T t power_func) (T0 g)
                           (linspace (fst t_span) (snd t_span) 500))) 0
    = T0 g.
Proof.
  intros power_func t_span. apply flatten_first.
  change 500%nat with (S 499).
  destruct (linspace_nonempty (fst t_span) (snd t_span) 499)
    as (first & rest & ->).
  apply (odeint_first _ contract).
Qed.

End DriverFacts.

(** The reference solver honours the documented contract. *)

Lemma euler_from_length :
  forall (func : R -> R -> R) (t : list R) (y t_prev : R),
    length (euler_from func y t_prev t) = length t.
Proof.
  intros func t. induction t as [| t_next rest IH]; intros y t_prev; simpl.
  - reflexivity.
  - rewrite IH. reflexivity.
Qed.

Lemma euler_from_width :
  forall (func : R -> R -> R) (t : list R) (y t_prev : R) (row : list R),
    In row (euler_from func y t_prev t) -> length row = 1%nat.
Proof.
  intros func t. induction t as [| t_next rest IH]; intros y t_prev row; simpl.
  - intros [].
  - intros [<- | Hin]; [reflexivity | eapply IH; exact Hin].
Qed.

Lemma euler_odeint_contract : odeint_contract euler_odeint.
Proof.
  split.
  - intros func y0 [| t0 rest]; simpl; [reflexivity |].
    rewrite euler_from_length. reflexivity.
  - intros func y0 [| t0 rest] row; simpl.
    + intros [].
    + intros [<- | Hin]; [reflexivity | eapply euler_from_width; exact Hin].
  - intros func y0 t0 t. reflexivity.
Qed.

(** ** The driver *)

(** C3 fails on the inverted span [(10, 5)]: the call returns a trajectory
    of 500 times going down from 10 to 5 and does not raise
    [IntegrationError]. *)
Lemma solve_scenario_inverted_span_returns :
  exists ts Ts : list R,
    solve_scenario module_globals euler_odeint power_idle (10, 5) "Inverted"
    = Returned (ts, Ts)
    /\ length ts = 500%nat
    /\ nth 0 ts 0 = 10
    /\ nth 499 ts 0 = 5
    /\ ~ raises (solve_scenario module_globals euler_odeint power_idle
                                (10, 5) "Inverted")
                "IntegrationError".
Proof.
  rewrite solve_scenario_returns. simpl fst; simpl snd.
  eexists; eexists. split; [reflexivity |].
  split; [apply linspace_length |].
  split; [apply linspace_500_first |].
  split; [apply linspace_500_last |].
  intro H. unfold raises in H. discriminate H.
Qed.

(** C10. The label plays no part in the result: two calls that differ only
    in the label return the same times and the same temperatures. *)
Theorem solve_scenario_label_irrelevant :
  forall (g : Globals) (odeint : ode_solver) (power_func : R -> R)
         (t_span : R * R) (l1 l2 : string),
    solve_scenario g odeint power_func t_span l1
    = solve_scenario g odeint power_func t_span l2.
Proof.
  intros g odeint power_func t_span l1 l2.
  rewrite !solve_scenario_returns. reflexivity.
Qed.

(** ** Initialization *)


(** * Further properties of the model *)

(** ** The exact solution and the equation it solves *)

(** The distance to the steady state decays by the factor [exp (- t / tau)]. *)
Lemma analytical_solution_gap :
  forall (g : Globals) (t T_initial P : R),
    analytical_solution g t T_initial P - (T_env g + P / k g)
    = (T_initial - (T_env g + P / k g)) * exp (- t / (C g / k g)).
Proof.
  intros g t T_initial P. unfold analytical_solution. ring.
Qed.

Lemma time_constant_positive :
  forall g : Globals, 0 < C g -> 0 < k g -> 0 < C g / k g.
Proof.
  intros g HC Hk. apply Rdiv_lt_0_compat; assumption.
Qed.

Lemma decay_factor_bounds :
  forall tau0 t : R, 0 < tau0 -> 0 <= t -> 0 < exp (- t / tau0) <= 1.
Proof.
  intros tau0 t Htau Ht. split; [apply exp_pos |].
  rewrite <- exp_0.
  assert (Harg : - t / tau0 <= 0).
  { unfold Rdiv. rewrite <- Ropp_mult_distr_l.
    assert (0 <= t * / tau0)
      by (apply Rmult_le_pos; [exact Ht | left; apply Rinv_0_lt_compat; exact Htau]).
    lra. }
  destruct Harg as [Hlt | Heq].
  - left. apply exp_increasing. exact Hlt.
  - rewrite Heq. right. reflexivity.
Qed.

Lemma decay_factor_antitone :
  forall tau0 s t : R,
    0 < tau0 -> s <= t -> exp (- t / tau0) <= exp (- s / tau0).
Proof.
  intros tau0 s t Htau [Hlt | ->]; [| right; reflexivity].
  left. apply exp_increasing.
  unfold Rdiv. apply Rmult_lt_compat_r; [apply Rinv_0_lt_compat; exact Htau | lra].
Qed.

(** The exact solution satisfies the equation it is meant to validate: at
    every time its derivative is the value of [cpu_ode] at the current
    temperature under the constant power. *)
Theorem analytical_solution_satisfies_ode :
  forall (g : Globals) (T_initial P t : R),
    C g <> 0 -> k g <> 0 ->
    derivable_pt_lim
      (fun s : R => analytical_solution g s T_initial P) t
      (cpu_ode g (analytical_solution g t T_initial P) t (fun _ : R => P)).
Proof.
  intros g T_initial P t HC Hk.
  set (A := T_env g + P / k g).
  set (B := T_initial - A).
  set (r := - / (C g / k g)).
  assert (Hinner : derivable_pt_lim (mult_real_fct r id) t (r * 1))
    by (apply derivable_pt_lim_scal; apply derivable_pt_lim_id).
  assert (Hexp : derivable_pt_lim (comp exp (mult_real_fct r id)) t
                   (exp (mult_real_fct r id t) * (r * 1)))
    by (apply derivable_pt_lim_comp; [exact Hinner | apply derivable_pt_lim_exp]).
  assert (Hscal : derivable_pt_lim
                    (mult_real_fct B (comp exp (mult_real_fct r id))) t
                    (B * (exp (mult_real_fct r id t) * (r * 1))))
    by (apply derivable_pt_lim_scal; exact Hexp).
  assert (Hsum : derivable_pt_lim
                   (plus_fct (fct_cte A)
                             (mult_real_fct B (comp exp (mult_real_fct r id))))
                   t (0 + B * (exp (mult_real_fct r id t) * (r * 1))))
    by (apply derivable_pt_lim_plus; [apply derivable_pt_lim_const | exact Hscal]).
  assert (Harg : forall s : R, mult_real_fct r id s = - s / (C g / k g))
    by (intro s; unfold mult_real_fct, id, r, Rdiv; ring).
  rewrite Harg in Hsum.
  replace (cpu_ode g (analytical_solution g t T_initial P) t (fun _ : R => P))
    with (0 + B * (exp (- t / (C g / k g)) * (r * 1))).
  - eapply derivable_pt_lim_ext; [| exact Hsum].
    intro s. unfold plus_fct, fct_cte, mult_real_fct, comp.
    fold (mult_real_fct r id s). rewrite Harg.
    unfold analytical_solution, B, A. reflexivity.
  - unfold cpu_ode, analytical_solution, B, A, r. field. split; assumption.
Qed.

Lemma analytical_solution_satisfies_ode_witness :
  C module_globals <> 0
  /\ k module_globals <> 0
  /\ derivable_pt_lim
       (fun s : R => analytical_solution module_globals s 25 10) 3
       (cpu_ode module_globals (analytical_solution module_globals 3 25 10) 3
                (fun _ : R => 10)).
Proof.
  assert (HC : C module_globals <> 0) by (simpl; lra).
  assert (Hk : k module_globals <> 0) by (simpl; lra).
  split; [exact HC | split; [exact Hk |]].
  exact (analytical_solution_satisfies_ode module_globals 25 10 3 HC Hk).
Defined.

(** With positive parameters the exact solution never crosses the steady
    state: from [t = 0] on, a run that starts at or below [T_env + P / k]
    stays at or below it, and a run that starts at or above stays at or
    above. *)
Theorem analytical_solution_no_overshoot :
  forall (g : Globals) (t T_initial P : R),
    0 < C g -> 0 < k g -> 0 <= t ->
    let T_ss := T_env g + P / k g in
    (T_initial <= T_ss -> analytical_solution g t T_initial P <= T_ss)
    /\ (T_ss <= T_initial -> T_ss <= analytical_solution g t T_initial P).
Proof.
  intros g t T_initial P HC Hk Ht T_ss.
  pose proof (analytical_solution_gap g t T_initial P) as Hgap.
  fold T_ss in Hgap.
  pose proof (decay_factor_bounds (C g / k g) t
                (time_constant_positive g HC Hk) Ht) as [Hpos Hle].
  set (e := exp (- t / (C g / k g))) in *.
  split; intro Hord; nra.
Qed.

Lemma analytical_solution_no_overshoot_witness :
  0 < C module_globals
  /\ 0 < k module_globals
  /\ 0 <= 7
  /\ let T_ss := T_env module_globals + 10 / k module_globals in
     (25 <= T_ss -> analytical_solution module_globals 7 25 10 <= T_ss)
     /\ (T_ss <= 25 -> T_ss <= analytical_solution module_globals 7 25 10).
Proof.
  assert (HC : 0 < C module_globals) by (simpl; lra).
  assert (Hk : 0 < k module_globals) by (simpl; lra).
  assert (Ht : 0 <= 7) by lra.
  split; [exact HC | split; [exact Hk | split; [exact Ht |]]].
  exact (analytical_solution_no_overshoot module_globals 7 25 10 HC Hk Ht).
Defined.

(** With positive parameters the exact solution never moves away from the
    steady state: a run that starts at or below it never falls as time
    advances, and a run that starts at or above it never rises. *)
Theorem analytical_solution_monotone :
  forall (g : Globals) (s t T_initial P : R),
    0 < C g -> 0 < k g -> s <= t ->
    let T_ss := T_env g + P / k g in
    (T_initial <= T_ss ->
       analytical_solution g s T_initial P <= analytical_solution g t T_initial P)
    /\ (T_ss <= T_initial ->
          analytical_solution g t T_initial P <= analytical_solution g s T_initial P).
Proof.
  intros g s t T_initial P HC Hk Hst T_ss.
  pose proof (analytical_solution_gap g s T_initial P) as Hs.
  pose proof (analytical_solution_gap g t T_initial P) as Ht.
  fold T_ss in Hs, Ht.
  pose proof (decay_factor_antitone (C g / k g) s t
                (time_constant_positive g HC Hk) Hst) as Hdec.
  set (es := exp (- s / (C g / k g))) in *.
  set (et := exp (- t / (C g / k g))) in *.
  split; intro Hord; nra.
Qed.

Lemma analytical_solution_monotone_witness :
  0 < C module_globals
  /\ 0 < k module_globals
  /\ 1 <= 2
  /\ let T_ss := T_env module_globals + 10 / k module_globals in
     (25 <= T_ss ->
        analytical_solution module_globals 1 25 10
        <= analytical_solution module_globals 2 25 10)
     /\ (T_ss <= 25 ->
           analytical_solution module_globals 2 25 10
           <= analytical_solution module_globals 1 25 10).
Proof.
  assert (HC : 0 < C module_globals) by (simpl; lra).
  assert (Hk : 0 < k module_globals) by (simpl; lra).
  assert (Hst : 1 <= 2) by lra.
  split; [exact HC | split; [exact Hk | split; [exact Hst |]]].
  exact (analytical_solution_monotone module_globals 1 2 25 10 HC Hk Hst).
Defined.

(** ** Numerical bounds on the decay factor *)

Lemma exp_double_lower :
  forall x y c c' : R,
    y = 2 * x -> 0 <= c -> c' <= c * c -> c <= exp x -> c' <= exp y.
Proof.
  intros x y c c' -> Hc Hsq Hle.
  replace (2 * x) with (x + x) by ring. rewrite exp_plus.
  pose proof (exp_pos x). nra.
Qed.

Lemma exp_1_lower : 27168203 / 10000000 <= exp 1.
Proof.
  assert (H0 : 1025 / 1024 <= exp (1 / 1024))
    by (pose proof (exp_ineq1_le (1 / 1024)); lra).
  assert (H1 : 10019540 / 10000000 <= exp (1 / 512))
    by (apply (exp_double_lower (1 / 1024) _ (1025 / 1024)); [lra | lra | lra | exact H0]).
  assert (H2 : 10039118 / 10000000 <= exp (1 / 256))
    by (apply (exp_double_lower (1 / 512) _ (10019540 / 10000000)); [lra | lra | lra | exact H1]).
  assert (H3 : 10078389 / 10000000 <= exp (1 / 128))
    by (apply (exp_double_lower (1 / 256) _ (10039118 / 10000000)); [lra | lra | lra | exact H2]).
  assert (H4 : 10157392 / 10000000 <= exp (1 / 64))
    by (apply (exp_double_lower (1 / 128) _ (10078389 / 10000000)); [lra | lra | lra | exact H3]).
  assert (H5 : 10317261 / 10000000 <= exp (1 / 32))
    by (apply (exp_double_lower (1 / 64) _ (10157392 / 10000000)); [lra | lra | lra | exact H4]).
  assert (H6 : 10644587 / 10000000 <= exp (1 / 16))
    by (apply (exp_double_lower (1 / 32) _ (10317261 / 10000000)); [lra | lra | lra | exact H5]).
  assert (H7 : 11330723 / 10000000 <= exp (1 / 8))
    by (apply (exp_double_lower (1 / 16) _ (10644587 / 10000000)); [lra | lra | lra | exact H6]).
  assert (H8 : 12838528 / 10000000 <= exp (1 / 4))
    by (apply (exp_double_lower (1 / 8) _ (11330723 / 10000000)); [lra | lra | lra | exact H7]).
  assert (H9 : 16482780 / 10000000 <= exp (1 / 2))
    by (apply (exp_double_lower (1 / 4) _ (12838528 / 10000000)); [lra | lra | lra | exact H8]).
  assert (H10 : 27168203 / 10000000 <= exp (1))
    by (apply (exp_double_lower (1 / 2) _ (16482780 / 10000000)); [lra | lra | lra | exact H9]).
  exact H10.
Qed.

Lemma exp_minus_1_lower : 3620546 / 10000000 <= exp (-1).
Proof.
  assert (H0 : 31 / 32 <= exp (-1 / 32))
    by (pose proof (exp_ineq1_le (-1 / 32)); lra).
  assert (H1 : 9384765 / 10000000 <= exp (-1 / 16))
    by (apply (exp_double_lower (-1 / 32) _ (31 / 32)); [lra | lra | lra | exact H0]).
  assert (H2 : 8807381 / 10000000 <= exp (-1 / 8))
    by (apply (exp_double_lower (-1 / 16) _ (9384765 / 10000000)); [lra | lra | lra | exact H1]).
  assert (H3 : 7756996 / 10000000 <= exp (-1 / 4))
    by (apply (exp_double_lower (-1 / 8) _ (8807381 / 10000000)); [lra | lra | lra | exact H2]).
  assert (H4 : 6017098 / 10000000 <= exp (-1 / 2))
    by (apply (exp_double_lower (-1 / 4) _ (7756996 / 10000000)); [lra | lra | lra | exact H3]).
  assert (H5 : 3620546 / 10000000 <= exp (-1))
    by (apply (exp_double_lower (-1 / 2) _ (6017098 / 10000000)); [lra | lra | lra | exact H4]).
  exact H5.
Qed.

Lemma decay_after_one_tau : 36 / 100 < exp (-1) < 37 / 100.
Proof.
  pose proof exp_1_lower as Hup. pose proof exp_minus_1_lower as Hlo.
  assert (Hprod : exp (-1) * exp 1 = 1)
    by (rewrite <- exp_plus; replace (-1 + 1) with 0 by ring; apply exp_0).
  split; nra.
Qed.

Lemma decay_after_three_tau : 4 / 100 < exp (-3) < 5 / 100.
Proof.
  pose proof exp_1_lower as Hup. pose proof exp_minus_1_lower as Hlo.
  assert (Hprod : exp (-1) * exp 1 = 1)
    by (rewrite <- exp_plus; replace (-1 + 1) with 0 by ring; apply exp_0).
  assert (Hhi : exp (-1) <= 3681 / 10000) by nra.
  replace (-3) with (-1 + (-1 + -1)) by ring. rewrite !exp_plus.
  set (x := exp (-1)) in *.
  assert (Hsq_lo : 1310 / 10000 <= x * x) by nra.
  assert (Hsq_hi : x * x <= 1355 / 10000) by nra.
  split; nra.
Qed.

Lemma decay_after_five_tau : 0 < exp (-5) < 1 / 100.
Proof.
  split; [apply exp_pos |].
  pose proof exp_1_lower as Hup.
  pose proof (exp_pos (-1)) as Hpos.
  assert (Hprod : exp (-1) * exp 1 = 1)
    by (rewrite <- exp_plus; replace (-1 + 1) with 0 by ring; apply exp_0).
  assert (Hhi : exp (-1) <= 3681 / 10000) by nra.
  replace (-5) with (-1 + (-1 + (-1 + (-1 + -1)))) by ring. rewrite !exp_plus.
  set (x := exp (-1)) in *.
  assert (Hsq : x * x <= 1355 / 10000) by nra.
  assert (Hsq0 : 0 < x * x) by nra.
  assert (Hq : x * x * (x * x) <= 184 / 10000) by nra.
  assert (Hq0 : 0 < x * x * (x * x)) by nra.
  nra.
Qed.

(** ** Settling *)

(** After a whole number [n] of time constants the exact solution has
    covered the fraction [1 - exp (- n)] of the way to the steady state. *)
Lemma analytical_solution_after_taus :
  forall (g : Globals) (n T_initial P : R),
    C g <> 0 -> k g <> 0 ->
    analytical_solution g (n * (C g / k g)) T_initial P - T_initial
    = (1 - exp (- n)) * (T_env g + P / k g - T_initial).
Proof.
  intros g n T_initial P HC Hk. unfold analytical_solution.
  replace (- (n * (C g / k g)) / (C g / k g)) with (- n)
    by (field; split; assumption).
  ring.
Qed.

(** The response times of the report are what their labels say: after
    [tau] the exact solution has covered between 63% and 64% of the distance
    from the initial temperature to the steady state, after [3 * tau] between
    95% and 96%, and after [5 * tau] more than 99% (and never all of it). *)
Theorem response_times_reach_their_fractions :
  forall (g : Globals) (T_initial P : R),
    0 < C g -> 0 < k g ->
    let report := print_analysis g in
    let T_ss := T_env g + P / k g in
    (analytical_solution g (response_63 report) T_initial P - T_initial
     = (1 - exp (-1)) * (T_ss - T_initial)
     /\ 63 / 100 < 1 - exp (-1) < 64 / 100)
    /\ (analytical_solution g (response_95 report) T_initial P - T_initial
        = (1 - exp (-3)) * (T_ss - T_initial)
        /\ 95 / 100 < 1 - exp (-3) < 96 / 100)
    /\ (analytical_solution g (response_99 report) T_initial P - T_initial
        = (1 - exp (-5)) * (T_ss - T_initial)
        /\ 99 / 100 < 1 - exp (-5) < 1).
Proof.
  intros g T_initial P HC Hk report T_ss.
  assert (HC' : C g <> 0) by lra.
  assert (Hk' : k g <> 0) by lra.
  unfold report, print_analysis, T_ss. simpl.
  pose proof decay_after_one_tau as H1.
  pose proof decay_after_three_tau as H3.
  pose proof decay_after_five_tau as H5.
  repeat split; try lra.
  - replace (C g / k g) with (1 * (C g / k g)) at 1 by ring.
    apply analytical_solution_after_taus; assumption.
  - apply analytical_solution_after_taus; assumption.
  - apply analytical_solution_after_taus; assumption.
Qed.

Lemma response_times_reach_their_fractions_witness :
  0 < C module_globals
  /\ 0 < k module_globals
  /\ let report := print_analysis module_globals in
     let T_ss := T_env module_globals + 80 / k module_globals in
     (analytical_solution module_globals (response_63 report) 25 80 - 25
      = (1 - exp (-1)) * (T_ss - 25)
      /\ 63 / 100 < 1 - exp (-1) < 64 / 100)
     /\ (analytical_solution module_globals (response_95 report) 25 80 - 25
         = (1 - exp (-3)) * (T_ss - 25)
         /\ 95 / 100 < 1 - exp (-3) < 96 / 100)
     /\ (analytical_solution module_globals (response_99 report) 25 80 - 25
         = (1 - exp (-5)) * (T_ss - 25)
         /\ 99 / 100 < 1 - exp (-5) < 1).
Proof.
  assert (HC : 0 < C module_globals) by (simpl; lra).
  assert (Hk : 0 < k module_globals) by (simpl; lra).
  split; [exact HC | split; [exact Hk |]].
  exact (response_times_reach_their_fractions module_globals 25 80 HC Hk).
Defined.

(** With positive parameters the exact solution converges to the steady
    state: it ends up, and stays, within any tolerance of
    [T_env + P / k]. *)
Theorem analytical_solution_converges :
  forall (g : Globals) (T_initial P eps : R),
    0 < C g -> 0 < k g -> 0 < eps ->
    exists t_star : R,
      forall t : R,
        t_star <= t ->
        Rabs (analytical_solution g t T_initial P - (T_env g + P / k g)) < eps.
Proof.
  intros g T_initial P eps HC Hk Heps.
  pose proof (time_constant_positive g HC Hk) as Htau.
  set (tau0 := C g / k g) in *.
  set (D := Rabs (T_initial - (T_env g + P / k g))).
  assert (HD : 0 <= D) by apply Rabs_pos.
  exists (tau0 * (D / eps)). intros t Ht.
  rewrite analytical_solution_gap. fold tau0.
  rewrite Rabs_mult. fold D.
  rewrite (Rabs_pos_eq (exp (- t / tau0))) by (left; apply exp_pos).
  replace (- t / tau0) with (- (t / tau0)) by (unfold Rdiv; ring).
  rewrite exp_Ropp.
  set (x := t / tau0).
  assert (Hx : D / eps <= x).
  { unfold x. apply (Rmult_le_reg_l tau0); [exact Htau |].
    replace (tau0 * (t / tau0)) with t by (field; lra). exact Ht. }
  pose proof (exp_ineq1_le x) as Hexp.
  pose proof (exp_pos x) as Hpos.
  assert (Hlt : D < eps * exp x).
  { replace D with (eps * (D / eps)) by (field; lra).
    apply Rmult_lt_compat_l; [exact Heps | lra]. }
  apply (Rmult_lt_reg_r (exp x)); [exact Hpos |].
  replace (D * / exp x * exp x) with D by (field; lra).
  exact Hlt.
Qed.

Lemma analytical_solution_converges_witness :
  0 < C module_globals
  /\ 0 < k module_globals
  /\ 0 < 1 / 100
  /\ exists t_star : R,
       forall t : R,
         t_star <= t ->
         Rabs (analytical_solution module_globals t 25 10
               - (T_env module_globals + 10 / k module_globals)) < 1 / 100.
Proof.
  assert (HC : 0 < C module_globals) by (simpl; lra).
  assert (Hk : 0 < k module_globals) by (simpl; lra).
  assert (Heps : 0 < 1 / 100) by lra.
  split; [exact HC | split; [exact Hk | split; [exact Heps |]]].
  exact (analytical_solution_converges module_globals 25 10 (1 / 100) HC Hk Heps).
Defined.

(** ** The rate of change *)

Lemma cpu_ode_restoring_form :
  forall (g : Globals) (T t : R) (power_func : R -> R),
    C g <> 0 -> k g <> 0 ->
    cpu_ode g T t power_func
    = k g / C g * (T_env g + power_func t / k g - T).
Proof.
  intros g T t power_func HC Hk. unfold cpu_ode. field. split; assumption.
Qed.

(** With positive parameters a hotter CPU never has the larger rate: at one
    instant and under one power profile, raising the temperature cannot
    raise the value of [cpu_ode]. *)
Theorem cpu_ode_temperature_dependence :
  forall (g : Globals) (T1 T2 t : R) (power_func : R -> R),
    0 < C g -> 0 < k g -> T1 <= T2 ->
    cpu_ode g T2 t power_func <= cpu_ode g T1 t power_func.
Proof.
  intros g T1 T2 t power_func HC Hk Hle.
  rewrite !cpu_ode_restoring_form by lra.
  assert (Hr : 0 < k g / C g) by (apply Rdiv_lt_0_compat; assumption).
  set (r := k g / C g) in *.
  set (b := T_env g + power_func t / k g). nra.
Qed.

Lemma cpu_ode_temperature_dependence_witness :
  0 < C module_globals
  /\ 0 < k module_globals
  /\ 30 <= 35
  /\ cpu_ode module_globals 35 2 power_periodic
     <= cpu_ode module_globals 30 2 power_periodic.
Proof.
  assert (HC : 0 < C module_globals) by (simpl; lra).
  assert (Hk : 0 < k module_globals) by (simpl; lra).
  assert (Hle : 30 <= 35) by lra.
  split; [exact HC | split; [exact Hk | split; [exact Hle |]]].
  exact (cpu_ode_temperature_dependence module_globals 30 35 2 power_periodic
           HC Hk Hle).
Defined.

(** ** The power scenarios *)

Lemma power_idle_range : forall t : R, 10 <= power_idle t <= 80.
Proof. intro t. unfold power_idle. lra. Qed.

Lemma power_step_range : forall t : R, 10 <= power_step t <= 80.
Proof.
  intro t. unfold power_step. destruct (Rlt_dec t 5); lra.
Qed.

Lemma power_periodic_range : forall t : R, 10 <= power_periodic t <= 80.
Proof.
  intro t. unfold power_periodic.
  pose proof (SIN_bound (2 * PI / 20 * t)) as [Hlo Hhi]. lra.
Qed.

Lemma scenario_range :
  forall power_func : R -> R,
    In power_func [power_idle; power_step; power_periodic] ->
    forall t : R, 10 <= power_func t <= 80.
Proof.
  intros power_func [<- | [<- | [<- | []]]].
  - apply power_idle_range.
  - apply power_step_range.
  - apply power_periodic_range.
Qed.

(** Under each of the three scenarios and with positive parameters, the
    rate is never negative at or below the idle steady state of the report
    and never positive at or above its full-load steady state. *)
Theorem scenarios_keep_temperature_band :
  forall (g : Globals) (power_func : R -> R) (T t : R),
    In power_func [power_idle; power_step; power_periodic] ->
    0 < C g -> 0 < k g ->
    (T <= T_steady_idle (print_analysis g) -> 0 <= cpu_ode g T t power_func)
    /\ (T_steady_load (print_analysis g) <= T ->
        cpu_ode g T t power_func <= 0).
Proof.
  intros g power_func T t Hin HC Hk.
  pose proof (scenario_range power_func Hin t) as [Hlo Hhi].
  rewrite cpu_ode_restoring_form by lra.
  unfold print_analysis, power_idle. simpl.
  assert (Hr : 0 < k g / C g) by (apply Rdiv_lt_0_compat; assumption).
  assert (Hik : 0 < / k g) by (apply Rinv_0_lt_compat; exact Hk).
  set (r := k g / C g) in *.
  set (P := power_func t) in *.
  unfold Rdiv. set (ik := / k g) in *.
  split; intro H.
  - assert (0 <= T_env g + P * ik - T) by nra. nra.
  - assert (T_env g + P * ik - T <= 0) by nra. nra.
Qed.

Lemma scenarios_keep_temperature_band_witness :
  In power_periodic [power_idle; power_step; power_periodic]
  /\ 0 < C module_globals
  /\ 0 < k module_globals
  /\ (26 <= T_steady_idle (print_analysis module_globals) ->
      0 <= cpu_ode module_globals 26 15 power_periodic)
  /\ (T_steady_load (print_analysis module_globals) <= 26 ->
      cpu_ode module_globals 26 15 power_periodic <= 0).
Proof.
  assert (Hin : In power_periodic [power_idle; power_step; power_periodic])
    by (right; right; left; reflexivity).
  assert (HC : 0 < C module_globals) by (simpl; lra).
  assert (Hk : 0 < k module_globals) by (simpl; lra).
  split; [exact Hin | split; [exact HC | split; [exact Hk |]]].
  exact (scenarios_keep_temperature_band module_globals power_periodic 26 15
           Hin HC Hk).
Defined.

(** The step load takes only the values 10 W and 80 W, never goes down as
    time advances, and has a genuine jump at [t = 5]: it is not continuous
    there. *)
Theorem power_step_shape :
  (forall t : R, power_step t = 10 \/ power_step t = 80)
  /\ (forall s t : R, s <= t -> power_step s <= power_step t)
  /\ ~ continuity_pt power_step 5.
Proof.
  split; [| split].
  - intro t. unfold power_step. destruct (Rlt_dec t 5); [left | right]; reflexivity.
  - intros s t Hst. unfold power_step.
    destruct (Rlt_dec s 5), (Rlt_dec t 5); lra.
  - intro Hcont.
    unfold continuity_pt, continue_in, limit1_in, limit_in in Hcont.
    simpl in Hcont. unfold Rdist in Hcont.
    destruct (Hcont 1 ltac:(lra)) as (alp & Halp & Hnear).
    specialize (Hnear (5 - alp / 2)).
    assert (Hpre : D_x no_cond 5 (5 - alp / 2)
                   /\ Rabs (5 - alp / 2 - 5) < alp).
    { split; [split; [exact I | lra] |].
      replace (5 - alp / 2 - 5) with (- (alp / 2)) by ring.
      rewrite Rabs_Ropp. rewrite Rabs_pos_eq; lra. }
    specialize (Hnear Hpre). unfold power_step in Hnear.
    destruct (Rlt_dec (5 - alp / 2) 5) as [_ | Hn]; [| lra].
    destruct (Rlt_dec 5 5) as [Habs | _]; [lra |].
    unfold Rabs in Hnear. destruct (Rcase_abs (10 - 80)); lra.
Qed.

(** ** Sample indices *)

Lemma INR_below_500 :
  forall i : nat, (i < 500)%nat -> 0 <= INR i <= 499.
Proof.
  intros i Hi. split; [apply pos_INR |].
  assert (Hle : (i <= 499)%nat) by lia.
  apply le_INR in Hle. rewrite (INR_IZR_INZ 499) in Hle.
  change (IZR (Z.of_nat 499)) with 499 in Hle. exact Hle.
Qed.

(** ** The plotted series *)

Lemma map_nth_in_range :
  forall (f : R -> R) (l : list R) (i : nat),
    (i < length l)%nat -> nth i (map f l) 0 = f (nth i l 0).
Proof.
  intros f l i Hi.
  rewrite (nth_indep _ 0 (f 0)) by (rewrite length_map; exact Hi).
  apply map_nth.
Qed.

Lemma analytical_solution_at_zero :
  forall (g : Globals) (T_initial P : R),
    analytical_solution g 0 T_initial P = T_initial.
Proof.
  intros g T_initial P. unfold analytical_solution.
  replace (- 0 / (C g / k g)) with 0 by (unfold Rdiv; ring).
  rewrite exp_0. ring.
Qed.

Lemma analytical_solution_rising_bounds :
  forall (g : Globals) (t T_initial P : R),
    0 < C g -> 0 < k g -> 0 <= t ->
    T_initial <= T_env g + P / k g ->
    T_initial <= analytical_solution g t T_initial P <= T_env g + P / k g.
Proof.
  intros g t T_initial P HC Hk Ht Hord.
  pose proof (analytical_solution_gap g t T_initial P) as Hgap.
  pose proof (decay_factor_bounds (C g / k g) t
                (time_constant_positive g HC Hk) Ht) as [Hpos Hle].
  set (e := exp (- t / (C g / k g))) in *.
  set (T_ss := T_env g + P / k g) in *.
  split; nra.
Qed.

Section PlotFacts.

Variable g : Globals.
Variable odeint : ode_solver.

Lemma plot_results_returns :
  plot_results g odeint
  = Returned
      (mkPlotData
         (linspace 0 60 500)
         (flatten (odeint (fun T t => cpu_ode g T t power_idle) (T0 g)
                          (linspace 0 60 500)))
         (map (fun t => analytical_solution g t (T0 g) (power_idle 0))
              (linspace 0 60 500))
         (linspace 0 60 500)
         (flatten (odeint (fun T t => cpu_ode g T t power_step) (T0 g)
                          (linspace 0 60 500)))
         (map (fun t => power_step t) (linspace 0 60 500))
         (linspace 0 60 500)
         (flatten (odeint (fun T t => cpu_ode g T t power_periodic) (T0 g)
                          (linspace 0 60 500)))
         (map (fun t => power_periodic t) (linspace 0 60 500))).
Proof. reflexivity. Qed.

End PlotFacts.

(** Every curve that [plot_results] draws has as many ordinates as
    abscissas, 500 of each, so no plotting call receives arrays of different
    lengths; and the numerical and the exact idle curves, like the step and
    periodic ones, all start from the module's [T0]. *)
Theorem plot_results_series_agree :
  forall (g : Globals) (odeint : ode_solver),
    odeint_contract odeint ->
    exists d : PlotData,
      plot_results g odeint = Returned d
      /\ (length (t_idle d) = 500%nat
          /\ length (T_numerical d) = 500%nat
          /\ length (T_analytical d) = 500%nat)
      /\ (length (t_step d) = 500%nat
          /\ length (T_step d) = 500%nat
          /\ length (P_step d) = 500%nat)
      /\ (length (t_periodic d) = 500%nat
          /\ length (T_periodic d) = 500%nat
          /\ length (P_periodic d) = 500%nat)
      /\ nth 0 (T_numerical d) 0 = T0 g
      /\ nth 0 (T_analytical d) 0 = T0 g
      /\ nth 0 (T_step d) 0 = T0 g
      /\ nth 0 (T_periodic d) 0 = T0 g.
Proof.
  intros g odeint contract.
  rewrite plot_results_returns. eexists. split; [reflexivity |].
  cbv beta iota delta [t_idle T_numerical T_analytical t_step T_step P_step
                       t_periodic T_periodic P_periodic].
  pose proof (fun p => solve_scenario_temperatures_length g odeint contract
                         p (0, 60)) as Hlen.
  pose proof (fun p => solve_scenario_first_temperature g odeint contract
                         p (0, 60)) as Hfirst.
  simpl fst in Hlen, Hfirst; simpl snd in Hlen, Hfirst.
  rewrite !length_map, !linspace_length, !Hlen, !Hfirst.
  repeat split.
  rewrite map_nth_in_range by (rewrite linspace_length; lia).
  rewrite linspace_500_first. apply analytical_solution_at_zero.
Qed.

Lemma plot_results_series_agree_witness :
  odeint_contract euler_odeint
  /\ exists d : PlotData,
       plot_results module_globals euler_odeint = Returned d
       /\ (length (t_idle d) = 500%nat
           /\ length (T_numerical d) = 500%nat
           /\ length (T_analytical d) = 500%nat)
       /\ (length (t_step d) = 500%nat
           /\ length (T_step d) = 500%nat
           /\ length (P_step d) = 500%nat)
       /\ (length (t_periodic d) = 500%nat
           /\ length (T_periodic d) = 500%nat
           /\ length (P_periodic d) = 500%nat)
       /\ nth 0 (T_numerical d) 0 = T0 module_globals
       /\ nth 0 (T_analytical d) 0 = T0 module_globals
       /\ nth 0 (T_step d) 0 = T0 module_globals
       /\ nth 0 (T_periodic d) 0 = T0 module_globals.
Proof.
  split; [exact euler_odeint_contract |].
  exact (plot_results_series_agree module_globals euler_odeint
           euler_odeint_contract).
Defined.

(** The power curves that are drawn: over the default span the step load is
    sampled at 10 W for the first 42 times and at 80 W for the other 458, so
    the jump falls between two samples, and every sample of the periodic
    load lies between 10 W and 80 W. *)
Theorem plot_results_power_series :
  forall (g : Globals) (odeint : ode_solver),
  exists d : PlotData,
    plot_results g odeint = Returned d
    /\ (forall i : nat, (i <= 41)%nat -> nth i (P_step d) 0 = 10)
    /\ (forall i : nat, (42 <= i < 500)%nat -> nth i (P_step d) 0 = 80)
    /\ (forall i : nat,
           (i < 500)%nat -> 10 <= nth i (P_periodic d) 0 <= 80).
Proof.
  intros g odeint.
  rewrite plot_results_returns. eexists. split; [reflexivity |].
  cbv beta iota delta [P_step P_periodic].
  split; [| split].
  - intros i Hi.
    rewrite map_nth_in_range by (rewrite linspace_length; lia).
    rewrite linspace_500_nth by lia.
    assert (Hle : (i <= 41)%nat) by exact Hi.
    apply le_INR in Hle. rewrite (INR_IZR_INZ 41) in Hle.
    change (IZR (Z.of_nat 41)) with 41 in Hle.
    apply power_step_values. lra.
  - intros i [Hlo Hhi].
    rewrite map_nth_in_range by (rewrite linspace_length; lia).
    rewrite linspace_500_nth by lia.
    apply le_INR in Hlo. rewrite (INR_IZR_INZ 42) in Hlo.
    change (IZR (Z.of_nat 42)) with 42 in Hlo.
    apply power_step_values. lra.
  - intros i Hi.
    rewrite map_nth_in_range by (rewrite linspace_length; lia).
    apply power_periodic_range.
Qed.

(** The exact idle curve that is drawn for validation stays between the
    initial temperature and the idle steady state of the report, provided
    the parameters are positive and the CPU starts no hotter than that
    steady state. *)
Theorem plot_results_idle_curve_bounds :
  forall (g : Globals) (odeint : ode_solver),
    0 < C g -> 0 < k g ->
    T0 g <= T_steady_idle (print_analysis g) ->
    exists d : PlotData,
      plot_results g odeint = Returned d
      /\ forall i : nat,
           (i < 500)%nat ->
           T0 g <= nth i (T_analytical d) 0
                <= T_steady_idle (print_analysis g).
Proof.
  intros g odeint HC Hk Hstart.
  rewrite plot_results_returns. eexists. split; [reflexivity |].
  cbv beta iota delta [T_analytical].
  intros i Hi.
  rewrite map_nth_in_range by (rewrite linspace_length; exact Hi).
  rewrite linspace_500_nth by exact Hi.
  pose proof (INR_below_500 i Hi) as [Hlo Hhi].
  unfold print_analysis in *. simpl in *.
  apply analytical_solution_rising_bounds; try assumption.
  set (x := INR i) in *. nra.
Qed.

Lemma plot_results_idle_curve_bounds_witness :
  0 < C module_globals
  /\ 0 < k module_globals
  /\ T0 module_globals <= T_steady_idle (print_analysis module_globals)
  /\ exists d : PlotData,
       plot_results module_globals euler_odeint = Returned d
       /\ forall i : nat,
            (i < 500)%nat ->
            T0 module_globals <= nth i (T_analytical d) 0
                              <= T_steady_idle (print_analysis module_globals).
Proof.
  assert (HC : 0 < C module_globals) by (simpl; lra).
  assert (Hk : 0 < k module_globals) by (simpl; lra).
  assert (Hstart : T0 module_globals
                   <= T_steady_idle (print_analysis module_globals))
    by (unfold print_analysis, power_idle; simpl; lra).
  split; [exact HC | split; [exact Hk | split; [exact Hstart |]]].
  exact (plot_results_idle_curve_bounds module_globals euler_odeint
           HC Hk Hstart).
Defined.

(** ** The report and the model *)

(** The two steady states of the report are where the model comes to rest,
    and nowhere else: with positive parameters the rate under the idle load
    (and under the step load before its jump) vanishes exactly at the idle
    steady state, and the rate under the step load from [t = 5] on vanishes
    exactly at the full-load steady state. *)
Theorem report_steady_states_are_equilibria :
  forall (g : Globals) (T t : R),
    0 < C g -> 0 < k g ->
    (cpu_ode g T t power_idle = 0 <-> T = T_steady_idle (print_analysis g))
    /\ (t < 5 ->
        (cpu_ode g T t power_step = 0 <-> T = T_steady_idle (print_analysis g)))
    /\ (5 <= t ->
        (cpu_ode g T t power_step = 0 <-> T = T_steady_load (print_analysis g))).
Proof.
  intros g T t HC Hk.
  assert (Hr : 0 < k g / C g) by (apply Rdiv_lt_0_compat; assumption).
  assert (Hzero : forall P0 power_func,
             power_func t = P0 ->
             (cpu_ode g T t power_func = 0 <-> T = T_env g + P0 / k g)).
  { intros P0 power_func HP.
    rewrite cpu_ode_restoring_form by lra. rewrite HP.
    set (r := k g / C g) in *. split; intro H; nra. }
  unfold print_analysis. simpl.
  split; [apply Hzero; reflexivity |].
  split; intro Ht; apply Hzero; apply power_step_values; exact Ht.
Qed.

Lemma report_steady_states_are_equilibria_witness :
  0 < C module_globals
  /\ 0 < k module_globals
  /\ (cpu_ode module_globals 27 8 power_idle = 0
      <-> 27 = T_steady_idle (print_analysis module_globals))
  /\ (8 < 5 ->
      (cpu_ode module_globals 27 8 power_step = 0
       <-> 27 = T_steady_idle (print_analysis module_globals)))
  /\ (5 <= 8 ->
      (cpu_ode module_globals 27 8 power_step = 0
       <-> 27 = T_steady_load (print_analysis module_globals))).
Proof.
  assert (HC : 0 < C module_globals) by (simpl; lra).
  assert (Hk : 0 < k module_globals) by (simpl; lra).
  split; [exact HC | split; [exact Hk |]].
  exact (report_steady_states_are_equilibria module_globals 27 8 HC Hk).
Defined.

(** * Properties in binary64 *)

Section Binary64Facts.

Local Open Scope float_scope.

(** ** Finite doubles *)




(** ** The steady state *)




(** ** The argument of the sine *)

Lemma b64_phase_code_real :
  Binary64.to_real (2 * Binary64.pi / 20 * 11)
  = (7781661527231284 / 2251799813685248)%R.
Proof.
  unfold Binary64.to_real.
  replace (Prim2SF (2 * Binary64.pi / 20 * 11))
    with (S754_finite false 7781661527231284 (-51))
    by (vm_compute; reflexivity).
  simpl powerRZ. lra.
Qed.

Lemma b64_phase_claim_real :
  Binary64.to_real (2 * Binary64.pi * 11 / 20)
  = (7781661527231283 / 2251799813685248)%R.
Proof.
  unfold Binary64.to_real.
  replace (Prim2SF (2 * Binary64.pi * 11 / 20))
    with (S754_finite false 7781661527231283 (-51))
    by (vm_compute; reflexivity).
  simpl powerRZ. lra.
Qed.

(** C8 fails for [t = 11] where it equates the returned value with
    [45 + 35 * sin (2 * pi * t / 20)]: the code takes the sine at the double
    [omega * 11], the claimed expression at the double [2 * pi * 11 / 20],
    these are different doubles, and the sine itself differs between
    them. *)
Lemma b64_periodic_argument_differs :
  (forall np_sin : float -> float,
      Binary64.power_periodic np_sin 11
      = 45 + 35 * np_sin (2 * Binary64.pi / 20 * 11))
  /\ 2 * Binary64.pi / 20 * 11 = 0x1.ba5614317cb34p+1
  /\ 2 * Binary64.pi * 11 / 20 = 0x1.ba5614317cb33p+1
  /\ (2 * Binary64.pi / 20 * 11 =? 2 * Binary64.pi * 11 / 20) = false
  /\ sin (Binary64.to_real (2 * Binary64.pi / 20 * 11))
     <> sin (Binary64.to_real (2 * Binary64.pi * 11 / 20)).
Proof.
  split; [intro np_sin; reflexivity |].
  split; [vm_compute; reflexivity |].
  split; [vm_compute; reflexivity |].
  split; [vm_compute; reflexivity |].
  rewrite b64_phase_code_real, b64_phase_claim_real.
  pose proof PI2_3_2 as Hlo. pose proof PI_4 as Hhi.
  apply Rlt_not_eq.
  apply sin_decreasing_1; lra.
Qed.

End Binary64Facts.

(** ** The driver in binary64 *)

Section Binary64Driver.

Local Open Scope float_scope.

Lemma b64_flatten_unit_rows :
  forall rows : list (list float),
    (forall row, In row rows -> length row = 1%nat) ->
    length (Binary64.flatten rows) = length rows.
Proof.
  unfold Binary64.flatten. induction rows as [| row rows IH]; intro Hw.
  - reflexivity.
  - simpl. rewrite length_app.
    rewrite (Hw row) by (left; reflexivity).
    rewrite IH by (intros r Hr; apply Hw; right; exact Hr).
    reflexivity.
Qed.

Lemma b64_flatten_first :
  forall (rows : list (list float)) (y0 : float),
    nth_error rows 0 = Some [y0] -> nth 0 (Binary64.flatten rows) nan = y0.
Proof.
  intros rows y0 H. destruct rows as [| row rows]; simpl in H.
  - discriminate.
  - injection H as ->. reflexivity.
Qed.

Lemma b64_euler_from_length :
  forall (func : float -> float -> float) (t : list float) (y t_prev : float),
    length (Binary64.euler_from func y t_prev t) = length t.
Proof.
  intros func t. induction t as [| t_next rest IH]; intros y t_prev; simpl.
  - reflexivity.
  - rewrite IH. reflexivity.
Qed.

Lemma b64_euler_from_width :
  forall (func : float -> float -> float) (t : list float) (y t_prev : float)
         (row : list float),
    In row (Binary64.euler_from func y t_prev t) -> length row = 1%nat.
Proof.
  intros func t. induction t as [| t_next rest IH]; intros y t_prev row; simpl.
  - intros [].
  - intros [<- | Hin]; [reflexivity | eapply IH; exact Hin].
Qed.

Lemma b64_euler_odeint_contract :
  Binary64.odeint_contract Binary64.euler_odeint.
Proof.
  split.
  - intros func y0 [| t0 rest] _; simpl; eauto.
  - intros func y0 [| t0 rest] rows H; simpl in H;
      injection H as <-; simpl; [reflexivity |].
    rewrite b64_euler_from_length. reflexivity.
  - intros func y0 [| t0 rest] rows row H; simpl in H;
      injection H as <-; simpl.
    + intros [].
    + intros [<- | Hin]; [reflexivity | eapply b64_euler_from_width; exact Hin].
  - intros func y0 t0 t rows H. simpl in H. injection H as <-. reflexivity.
Qed.

(** The driver raises exactly what the solver raises. *)
Lemma b64_solve_scenario_raises_iff :
  forall (odeint : Binary64.ode_solver) (power_func : float -> float)
         (t_span : float * float) (label cls : string),
    raises (Binary64.solve_scenario odeint power_func t_span label) cls
    <-> raises (odeint (fun T t => Binary64.cpu_ode T t power_func)
                       Binary64.T0
                       (Binary64.linspace (fst t_span) (snd t_span) 500))
               cls.
Proof.
  intros odeint power_func t_span label cls.
  unfold raises, Binary64.solve_scenario.
  destruct (odeint _ _ _) as [rows | e]; split; intro H;
    try discriminate H; injection H as ->; reflexivity.
Qed.

(** On an admissible, non-empty time array the driver returns the times it
    built and one temperature for each, the first being [T0]. *)
Lemma b64_solve_scenario_returns :
  forall (odeint : Binary64.ode_solver),
    Binary64.odeint_contract odeint ->
    forall (power_func : float -> float) (t_span : float * float)
           (label : string) (ts : list float),
      Binary64.linspace (fst t_span) (snd t_span) 500 = ts ->
      Binary64.monotone_times ts = true ->
      length ts = 500%nat ->
      exists Ts : list float,
        Binary64.solve_scenario odeint power_func t_span label
        = Returned (ts, Ts)
        /\ length Ts = 500%nat
        /\ nth 0 Ts nan = Binary64.T0.
Proof.
  intros odeint contract power_func t_span label ts Hts Hmono Hlen.
  destruct (Binary64.odeint_accepts _ contract
              (fun T t => Binary64.cpu_ode T t power_func) Binary64.T0
              ts Hmono) as [rows Hrows].
  exists (Binary64.flatten rows).
  unfold Binary64.solve_scenario. rewrite Hts, Hrows.
  split; [reflexivity |].
  split.
  - rewrite b64_flatten_unit_rows
      by (intros row; apply (Binary64.odeint_width _ contract _ _ _ _ _ Hrows)).
    rewrite (Binary64.odeint_rows _ contract _ _ _ _ Hrows). exact Hlen.
  - apply b64_flatten_first.
    destruct ts as [| t0 rest]; [discriminate Hlen |].
    exact (Binary64.odeint_first _ contract _ _ _ _ _ Hrows).
Qed.



Lemma b64_inverted_times_checks :
  length (Binary64.linspace 10 5 500) = 500%nat
  /\ Binary64.monotone_times (Binary64.linspace 10 5 500) = true
  /\ Binary64.strictly_decreasing (Binary64.linspace 10 5 500) = true
  /\ nth 0 (Binary64.linspace 10 5 500) nan = 10
  /\ nth 499 (Binary64.linspace 10 5 500) nan = 5.
Proof. repeat split; vm_compute; reflexivity. Qed.

Lemma b64_point_times_checks :
  Binary64.linspace 5 5 500 = repeat 5 500
  /\ length (Binary64.linspace 5 5 500) = 500%nat
  /\ Binary64.monotone_times (Binary64.linspace 5 5 500) = true.
Proof. repeat split; vm_compute; reflexivity. Qed.

(** C3, as the code has it.  The driver has no check and no [raise] of its
    own, and the sample count is the literal 500: whatever the span, it
    raises exactly what [odeint] raises on the 500 times of [linspace].  For
    the inverted span [(10, 5)] these times run strictly down from 10 to 5,
    for the empty span [(5, 5)] they are 500 times the value 5; scipy admits
    both, so the call returns them with 500 temperatures starting at [T0],
    and no [IntegrationError] is raised. *)
Theorem b64_solve_scenario_unvalidated_span :
  forall (odeint : Binary64.ode_solver),
    Binary64.odeint_contract odeint ->
    forall (power_func : float -> float) (label : string),
      (forall (t_span : float * float) (cls : string),
          raises (Binary64.solve_scenario odeint power_func t_span label) cls
          <-> raises (odeint (fun T t => Binary64.cpu_ode T t power_func)
                             Binary64.T0
                             (Binary64.linspace (fst t_span) (snd t_span) 500))
                     cls)
      /\ (exists Ts : list float,
             Binary64.solve_scenario odeint power_func (10, 5) label
             = Returned (Binary64.linspace 10 5 500, Ts)
             /\ length (Binary64.linspace 10 5 500) = 500%nat
             /\ nth 0 (Binary64.linspace 10 5 500) nan = 10
             /\ nth 499 (Binary64.linspace 10 5 500) nan = 5
             /\ Binary64.strictly_decreasing (Binary64.linspace 10 5 500)
                = true
             /\ length Ts = 500%nat
             /\ nth 0 Ts nan = Binary64.T0
             /\ ~ raises (Binary64.solve_scenario odeint power_func (10, 5)
                                                  label)
                         "IntegrationError")
      /\ (exists Ts : list float,
             Binary64.solve_scenario odeint power_func (5, 5) label
             = Returned (repeat 5 500, Ts)
             /\ length Ts = 500%nat
             /\ ~ raises (Binary64.solve_scenario odeint power_func (5, 5)
                                                  label)
                         "IntegrationError").
Proof.
  intros odeint contract power_func label.
  split; [intros t_span cls; apply b64_solve_scenario_raises_iff |].
  destruct b64_inverted_times_checks as (Hlen & Hmono & Hdec & Hfirst & Hlast).
  destruct b64_point_times_checks as (Hpt & Hptlen & Hptmono).
  split.
  - destruct (b64_solve_scenario_returns odeint contract power_func (10, 5)
                label (Binary64.linspace 10 5 500) eq_refl Hmono Hlen)
      as (Ts & Hret & HTs & HT0).
    exists Ts. rewrite Hret.
    repeat split; try assumption.
    intro H. unfold raises in H. discriminate H.
  - destruct (b64_solve_scenario_returns odeint contract power_func (5, 5)
                label (Binary64.linspace 5 5 500) eq_refl Hptmono Hptlen)
      as (Ts & Hret & HTs & _).
    exists Ts. rewrite Hret. rewrite Hpt.
    repeat split; try assumption.
    intro H. unfold raises in H. discriminate H.
Qed.

Lemma b64_solve_scenario_unvalidated_span_witness :
  Binary64.odeint_contract Binary64.euler_odeint
  /\ (forall (t_span : float * float) (cls : string),
         raises (Binary64.solve_scenario Binary64.euler_odeint
                   Binary64.power_step t_span "Step Load") cls
         <-> raises (Binary64.euler_odeint
                       (fun T t => Binary64.cpu_ode T t Binary64.power_step)
                       Binary64.T0
                       (Binary64.linspace (fst t_span) (snd t_span) 500))
                    cls)
  /\ (exists Ts : list float,
         Binary64.solve_scenario Binary64.euler_odeint Binary64.power_step
                                 (10, 5) "Step Load"
         = Returned (Binary64.linspace 10 5 500, Ts)
         /\ length (Binary64.linspace 10 5 500) = 500%nat
         /\ nth 0 (Binary64.linspace 10 5 500) nan = 10
         /\ nth 499 (Binary64.linspace 10 5 500) nan = 5
         /\ Binary64.strictly_decreasing (Binary64.linspace 10 5 500) = true
         /\ length Ts = 500%nat
         /\ nth 0 Ts nan = Binary64.T0
         /\ ~ raises (Binary64.solve_scenario Binary64.euler_odeint
                        Binary64.power_step (10, 5) "Step Load")
                     "IntegrationError")
  /\ (exists Ts : list float,
         Binary64.solve_scenario Binary64.euler_odeint Binary64.power_step
                                 (5, 5) "Step Load"
         = Returned (repeat 5 500, Ts)
         /\ length Ts = 500%nat
         /\ ~ raises (Binary64.solve_scenario Binary64.euler_odeint
                        Binary64.power_step (5, 5) "Step Load")
                     "IntegrationError").
Proof.
  split; [exact b64_euler_odeint_contract |].
  exact (b64_solve_scenario_unvalidated_span Binary64.euler_odeint
           b64_euler_odeint_contract Binary64.power_step "Step Load").
Defined.




End Binary64Driver.
